(** * Card image route of the blog (src/app/api/og/route.tsx)

    A shallow embedding of the edge route that renders the social preview
    card: the module-scoped font promise, the [GET] handler with its
    try/catch boundary, the heading truncation and the JSX layout handed to
    the image response constructor. *)

From Stdlib Require Import List ZArith NArith Lia Bool String Ascii.
Import ListNotations.
Open Scope Z_scope.

(** ** JavaScript strings

    A JavaScript string is a sequence of UTF-16 code units; [length] and
    [substring] count code units, so a character of the model is one code
    unit, held as an [N]. *)

Module Js.

Definition char16 := N.
Definition JsString := list char16.

(** A string literal of the source. *)
Definition lit (s : string) : JsString :=
  map N_of_ascii (list_ascii_of_string s).

(** [s.length] *)
Definition length (s : JsString) : Z := Z.of_nat (List.length s).

(** Clamping of an index argument of [substring] into [0, len]. *)
Definition clamp (len i : Z) : Z := Z.min (Z.max i 0) len.

(** [s.substring(start, end)]: both indices are clamped into [0, s.length]
    and swapped when [start] is the larger. *)
Definition substring (s : JsString) (start end_ : Z) : JsString :=
  let len := length s in
  let final_start := clamp len start in
  let final_end := clamp len end_ in
  let from := Z.min final_start final_end in
  let to := Z.max final_start final_end in
  firstn (Z.to_nat (to - from)) (skipn (Z.to_nat from) s).

(** Template literal concatenation and [+] on strings. *)
Definition concat (a b : JsString) : JsString := a ++ b.

Fixpoint eqb (a b : JsString) : bool :=
  match a, b with
  | [], [] => true
  | x :: a', y :: b' => N.eqb x y && eqb a' b'
  | _, _ => false
  end.

(** [!v] for a value of type [string | null]: null and the empty string
    are the falsy ones. *)
Definition not_ (v : option JsString) : bool :=
  match v with
  | None => true
  | Some s => length s =? 0
  end.

End Js.

Abbreviation JsString := Js.JsString.
Notation "` s" := (Js.lit s) (at level 1, format "` s").

(** ** The heading (route.tsx, line 22)

    [title.length > 140 ? `${title.substring(0, 140)}...` : title] *)

Definition heading (title : JsString) : JsString :=
  if Js.length title >? 140
  then Js.concat (Js.substring title 0 140) `"..."
  else title.

(** ** Runtime: completions, promises and the event trace

    The handler is an [async] function whose body sits in one try/catch.
    Its effects are threaded through a state-and-exception monad: a
    computation takes the runtime and gives back a completion (a value, or
    a thrown error) with the runtime after it.  A promise is read at its
    settlement, and [await] is the point where that settlement reaches the
    awaiting code. *)

Inductive JsError : Type :=
| Error (message : JsString).

Inductive Completion (A : Type) : Type :=
| Normal (a : A)
| Throw (e : JsError).
Arguments Normal {A} a.
Arguments Throw {A} e.

Inductive Settlement (A : Type) : Type :=
| Fulfilled (v : A)
| Rejected (e : JsError).
Arguments Fulfilled {A} v.
Arguments Rejected {A} e.

(** A promise has an identity, so that two reads of one promise can be told
    from reads of two promises. *)
Record Promise (A : Type) : Type := mkPromise {
  pid : nat;
  settled : Settlement A
}.
Arguments mkPromise {A} pid settled.
Arguments pid {A} p.
Arguments settled {A} p.

(** [new URL(input, base)] *)
Record URL : Type := mkURL {
  url_input : JsString;
  url_base : JsString
}.

Definition ArrayBuffer := list Byte.byte.

(** What [fetch] resolves to; the only member the module uses is
    [arrayBuffer()]. *)
Record FetchResponse : Type := {
  body_bytes : Settlement ArrayBuffer
}.

(** *** React elements *)

#[local] Set Warnings "-register-all".

Inductive StyleValue : Type :=
| SNum (n : Z)
| SStr (s : JsString).

Inductive PropValue : Type :=
| PStr (s : JsString)
| PStyle (fields : list (JsString * StyleValue)).

Inductive Node : Type :=
| Text (s : JsString)
| Element (type_ : JsString) (props : list (JsString * PropValue))
          (children : list Node).

Record Font : Type := {
  font_name : JsString;
  font_data : ArrayBuffer;
  font_style : JsString;
  font_weight : Z
}.

Record ImageOptions : Type := {
  width : Z;
  height : Z;
  fonts : list Font
}.

Inductive Event : Type :=
| EvFetch (u : URL)
| EvAwait (p : nat)
| EvImageResponse (element : Node) (options : ImageOptions).

Record Runtime : Type := mkRuntime {
  next_promise : nat;
  trace : list Event
}.

Definition M (A : Type) : Type := Runtime -> Completion A * Runtime.

Definition ret {A} (a : A) : M A := fun rt => (Normal a, rt).

Definition bind {A B} (c : M A) (k : A -> M B) : M B :=
  fun rt =>
    match c rt with
    | (Normal a, rt') => k a rt'
    | (Throw e, rt') => (Throw e, rt')
    end.

Definition throw {A} (e : JsError) : M A := fun rt => (Throw e, rt).

(** [try { body } catch (error) { handler }] *)
Definition try_catch {A} (body : M A) (handler : JsError -> M A) : M A :=
  fun rt =>
    match body rt with
    | (Normal a, rt') => (Normal a, rt')
    | (Throw e, rt') => handler e rt'
    end.

Notation "x <- c ;; k" := (bind c (fun x => k))
  (at level 61, c at next level, right associativity).

(** The runtime with one more event at the end of its trace. *)
Definition logged (rt : Runtime) (e : Event) : Runtime :=
  mkRuntime (next_promise rt) (trace rt ++ [e]).

Definition emit (e : Event) : M unit :=
  fun rt => (Normal tt, logged rt e).

Definition fresh_promise {A} (s : Settlement A) : M (Promise A) :=
  fun rt => (Normal (mkPromise (next_promise rt) s),
             mkRuntime (S (next_promise rt)) (trace rt)).

(** [await p] *)
Definition await {A} (p : Promise A) : M A :=
  _ <- emit (EvAwait (pid p)) ;;
  match settled p with
  | Fulfilled v => ret v
  | Rejected e => throw e
  end.

(** [p.then(f)]: a new promise; [f] runs only when [p] fulfils, and the new
    promise follows the promise [f] returns, or rejects with what [f]
    throws. *)
Definition then_ {A B} (p : Promise A) (f : A -> M (Promise B))
  : M (Promise B) :=
  match settled p with
  | Rejected e => fresh_promise (Rejected e)
  | Fulfilled v =>
      fun rt =>
        match f v rt with
        | (Normal q, rt') => fresh_promise (settled q) rt'
        | (Throw e, rt') => fresh_promise (Rejected e) rt'
        end
  end.

(** ** Requests and responses *)

(** [URLSearchParams]: an ordered list of name and value pairs; [get] gives
    the value of the first pair with the name, or null. *)
Definition URLSearchParams := list (JsString * JsString).

Fixpoint get (sp : URLSearchParams) (name : JsString) : option JsString :=
  match sp with
  | [] => None
  | (k, v) :: rest => if Js.eqb k name then Some v else get rest name
  end.

Record NextURL : Type := { searchParams : URLSearchParams }.
Record NextRequest : Type := { nextUrl : NextURL }.

Inductive Body : Type :=
| BText (text : JsString)
| BImage (element : Node) (options : ImageOptions).

Record Response : Type := mkResponse {
  status : Z;
  body : Body
}.

(** [new Response(text, { status })] *)
Definition new_Response (text : JsString) (st : Z) : Response :=
  mkResponse st (BText text).

(** ** The environment of the module: what lies outside the repository *)

Record Env : Type := {
  (** [import.meta.url] of the route module *)
  import_meta_url : JsString;
  (** the outcome of fetching a URL *)
  network : URL -> Settlement FetchResponse;
  (** whether the [ImageResponse] constructor throws on its arguments *)
  image_response_throws : Node -> ImageOptions -> option JsError
}.

(** config/site.ts *)
Record SiteConfig : Type := {
  name : JsString;
  url : JsString;
  description : JsString;
  author : JsString
}.

Definition siteConfig : SiteConfig := {|
  name := `"Revi's Blog";
  url := `"https://revi-blog.rev.earth";
  description := `"Revi's blog covers a wide range of topics, discussing everything from tech and creativity to life and beyond.";
  author := `"Revi"
|}.

(** ** The route module (route.tsx) *)

(** The 50 by 50 mark, lines 28 to 65. *)
Definition logo_path_style : PropValue :=
  PStyle [ (`"strokeWidth", SNum 15);
           (`"strokeLinecap", SStr `"round");
           (`"strokeLinejoin", SStr `"round");
           (`"strokeMiterlimit", SNum 10) ].

Definition logo_path (d : JsString) : Node :=
  Element `"path"
    [ (`"d", PStr d);
      (`"style", logo_path_style);
      (`"fill", PStr `"none");
      (`"stroke", PStr `"#2e78c9");
      (`"data-original", PStr `"#000000");
      (`"opacity", PStr `"1") ]
    [].

Definition logo : Node :=
  Element `"svg"
    [ (`"xmlns", PStr `"http://www.w3.org/2000/svg");
      (`"version", PStr `"1.1");
      (`"xmlnsXlink", PStr `"http://www.w3.org/1999/xlink");
      (`"width", PStr `"50");
      (`"height", PStr `"50");
      (`"x", PStr `"0");
      (`"y", PStr `"0");
      (`"viewBox", PStr `"0 0 512 512");
      (`"xmlSpace", PStr `"preserve") ]
    [ logo_path `"M256.073 256.042 471.207 380.25M40.792 380.249l215.099-124.186M256 63.447V7.5M256 256.042V98.447M228.542 456.94 256 504.5l215.208-372.749-341.889-.001M94.319 131.75H40.793l170.304 294.976M327.808 380.25h143.399l-71.723-124.229M112.516 256.021 40.792 380.249h143.346M327.592 131.5 256 7.5l-71.592 124";
      logo_path `"m318.25 239.427 45.569 78.823-215.639-.001L256 131.75l44.663 77.255" ].

(** The JSX tree of lines 26 to 74, as a function of the heading. *)
Definition card (heading : JsString) : Node :=
  Element `"div"
    [ (`"tw", PStr `"flex relative flex-col p-12 w-full h-full items-start text-black bg-white") ]
    [ Element `"div" [ (`"tw", PStr `"flex items-center") ]
        [ logo;
          Element `"p" [ (`"tw", PStr `"ml-4 font-bold text-2xl") ]
            [ Text `"Revi's Blog" ] ];
      Element `"div" [ (`"tw", PStr `"flex flex-col flex-1 py-10") ]
        [ Element `"div" [ (`"tw", PStr `"flex text-[80px] font-bold text-[50px]") ]
            [ Text heading ] ];
      Element `"div" [ (`"tw", PStr `"flex items-center w-full justify-between") ]
        [ Element `"div" [ (`"tw", PStr `"flex text-md") ]
            [ Text (url siteConfig) ] ] ].

Definition card_options (fontBold : ArrayBuffer) : ImageOptions := {|
  width := 800;
  height := 400;
  fonts := [ {| font_name := `"Inter";
                font_data := fontBold;
                font_style := `"normal";
                font_weight := 700 |} ]
|}.

Definition no_title : Response := new_Response `"No title provided" 500.
Definition failed : Response := new_Response `"Failed to generate image" 500.

(** Module scope: the one binding the handler reads. *)
Record RouteModule : Type := {
  interBold : Promise ArrayBuffer
}.

Section Route.

Variable env : Env.

(** [fetch(u)] *)
Definition fetch (u : URL) : M (Promise FetchResponse) :=
  _ <- emit (EvFetch u) ;;
  fresh_promise (network env u).

(** [res.arrayBuffer()] *)
Definition arrayBuffer (res : FetchResponse) : M (Promise ArrayBuffer) :=
  fresh_promise (body_bytes res).

(** [new ImageResponse(element, options)]: the response of the image
    library, status 200, whose body is [element] drawn on a canvas of
    [options.width] by [options.height]. *)
Definition new_ImageResponse (element : Node) (options : ImageOptions)
  : M Response :=
  _ <- emit (EvImageResponse element options) ;;
  match image_response_throws env element options with
  | Some e => throw e
  | None => ret (mkResponse 200 (BImage element options))
  end.

Definition font_url : URL :=
  mkURL `"../../../assets/fonts/Inter-Bold.ttf" (import_meta_url env).

(** Evaluation of the module body, lines 7 to 9. *)
Definition module_init : M RouteModule :=
  p <- fetch font_url ;;
  q <- then_ p (fun res => arrayBuffer res) ;;
  ret {| interBold := q |}.

Variable module : RouteModule.

(** The handler, lines 11 to 92. *)
Definition GET (req : NextRequest) : M Response :=
  try_catch
    (fontBold <- await (interBold module) ;;
     let searchParams := searchParams (nextUrl req) in
     let title := get searchParams `"title" in
     if Js.not_ title then ret no_title
     else
       (* past the guard [title] is a string *)
       let title := match title with Some s => s | None => [] end in
       let heading := heading title in
       new_ImageResponse (card heading) (card_options fontBold))
    (fun error => ret failed).

(** Requests served one after the other in one process. *)
Fixpoint serve (reqs : list NextRequest) (rt : Runtime)
  : list (Completion Response) * Runtime :=
  match reqs with
  | [] => ([], rt)
  | req :: rest =>
      let '(c, rt1) := GET req rt in
      let '(cs, rt2) := serve rest rt1 in
      (c :: cs, rt2)
  end.

End Route.

Definition initial_runtime : Runtime := mkRuntime 0 [].

(** *** Observations on traces and responses *)

Definition is_fetch (e : Event) : bool :=
  match e with EvFetch _ => true | _ => false end.

Definition is_render (e : Event) : bool :=
  match e with EvImageResponse _ _ => true | _ => false end.

Definition fetches (tr : list Event) : list Event := filter is_fetch tr.
Definition renders (tr : list Event) : list Event := filter is_render tr.

Fixpoint awaited (tr : list Event) : list nat :=
  match tr with
  | [] => []
  | EvAwait p :: rest => p :: awaited rest
  | _ :: rest => awaited rest
  end.

Definition is_image (r : Response) : bool :=
  match body r with BImage _ _ => true | BText _ => false end.

Definition image_dimensions (r : Response) : option (Z * Z) :=
  match body r with
  | BImage _ o => Some (width o, height o)
  | BText _ => None
  end.

Definition children (n : Node) : list Node :=
  match n with
  | Text _ => []
  | Element _ _ cs => cs
  end.

Definition child (i : nat) (n : Node) : option Node := nth_error (children n) i.

(** The text drawn in the heading region: second child of the container,
    then its first child, then the text inside. *)
Definition heading_text (n : Node) : option JsString :=
  match child 1 n with
  | Some region =>
      match child 0 region with
      | Some h =>
          match child 0 h with
          | Some (Text s) => Some s
          | _ => None
          end
      | None => None
      end
  | None => None
  end.

Definition rendered_heading (r : Response) : option JsString :=
  match body r with
  | BImage element _ => heading_text element
  | BText _ => None
  end.

(** ** Colours of the layout

    The [tw] property holds utility classes separated by spaces.  Of the
    colour utilities only the two palette names the layout uses are
    needed: [bg-NAME] sets the background of its element and [text-NAME]
    the text colour, inherited by descendants; the other [text-] classes
    of the layout are font sizes and set no colour.  An SVG [stroke]
    attribute is a CSS colour: a palette name, [#rrggbb], or
    [currentColor] for the inherited text colour. *)

Record Color : Type := rgb {
  red : Z;
  green : Z;
  blue : Z
}.

Definition black : Color := rgb 0 0 0.
Definition white : Color := rgb 255 255 255.

Definition palette (name : JsString) : option Color :=
  if Js.eqb name `"black" then Some black
  else if Js.eqb name `"white" then Some white
  else None.

(** [acc] holds the current word, last code unit first. *)
Fixpoint words_from (acc s : JsString) : list JsString :=
  match s with
  | [] => match acc with [] => [] | _ => [rev acc] end
  | c :: s' =>
      if N.eqb c 32
      then match acc with
           | [] => words_from [] s'
           | _ => rev acc :: words_from [] s'
           end
      else words_from (c :: acc) s'
  end.

Definition words (s : JsString) : list JsString := words_from [] s.

Fixpoint strip_prefix (p s : JsString) : option JsString :=
  match p, s with
  | [], _ => Some s
  | x :: p', y :: s' => if N.eqb x y then strip_prefix p' s' else None
  | _ :: _, [] => None
  end.

Fixpoint prop (key : JsString) (props : list (JsString * PropValue))
  : option PropValue :=
  match props with
  | [] => None
  | (k, v) :: rest => if Js.eqb k key then Some v else prop key rest
  end.

Definition classes (props : list (JsString * PropValue)) : list JsString :=
  match prop `"tw" props with
  | Some (PStr s) => words s
  | _ => []
  end.

(** The colour set by the first class [prefix ++ NAME] with [NAME] in the
    palette. *)
Fixpoint utility (prefix : JsString) (cls : list JsString) : option Color :=
  match cls with
  | [] => None
  | c :: rest =>
      match strip_prefix prefix c with
      | Some name =>
          match palette name with
          | Some col => Some col
          | None => utility prefix rest
          end
      | None => utility prefix rest
      end
  end.

Definition background (n : Node) : option Color :=
  match n with
  | Text _ => None
  | Element _ props _ => utility `"bg-" (classes props)
  end.

(** Every text of the tree with the colour it is drawn in. *)
Fixpoint text_colors (inherited : Color) (n : Node)
  : list (JsString * Color) :=
  match n with
  | Text s => [(s, inherited)]
  | Element _ props cs =>
      let c := match utility `"text-" (classes props) with
               | Some c => c
               | None => inherited
               end in
      flat_map (text_colors c) cs
  end.

Definition hex_digit (c : N) : option Z :=
  if (48 <=? c)%N && (c <=? 57)%N then Some (Z.of_N c - 48)
  else if (97 <=? c)%N && (c <=? 102)%N then Some (Z.of_N c - 87)
  else if (65 <=? c)%N && (c <=? 70)%N then Some (Z.of_N c - 55)
  else None.

Definition hex_byte (h l : N) : option Z :=
  match hex_digit h, hex_digit l with
  | Some a, Some b => Some (16 * a + b)
  | _, _ => None
  end.

Definition css_color (current : Color) (s : JsString) : option Color :=
  if Js.eqb s `"currentColor" then Some current
  else match palette s with
       | Some c => Some c
       | None =>
           match s with
           | [35; r1; r2; g1; g2; b1; b2]%N =>
               match hex_byte r1 r2, hex_byte g1 g2, hex_byte b1 b2 with
               | Some r, Some g, Some b => Some (rgb r g b)
               | _, _, _ => None
               end
           | _ => None
           end
       end.

(** The colour of every stroke of the tree, in document order. *)
Fixpoint stroke_colors (current : Color) (n : Node) : list (option Color) :=
  match n with
  | Text _ => []
  | Element _ props cs =>
      let c := match utility `"text-" (classes props) with
               | Some c => c
               | None => current
               end in
      match prop `"stroke" props with
      | Some (PStr s) => [css_color c s]
      | _ => []
      end ++ flat_map (stroke_colors c) cs
  end.

(** ** Sample environments and requests *)

Definition sample_font : ArrayBuffer := [Byte.x00; Byte.x01; Byte.x00; Byte.x00].

Definition online : Env := {|
  import_meta_url := `"file:///app/api/og/route.js";
  network := fun _ => Fulfilled {| body_bytes := Fulfilled sample_font |};
  image_response_throws := fun _ _ => None
|}.

Definition offline : Env := {|
  import_meta_url := `"file:///app/api/og/route.js";
  network := fun _ => Rejected (Error `"fetch failed");
  image_response_throws := fun _ _ => None
|}.

Definition broken_renderer : Env := {|
  import_meta_url := `"file:///app/api/og/route.js";
  network := fun _ => Fulfilled {| body_bytes := Fulfilled sample_font |};
  image_response_throws := fun _ _ => Some (Error `"render failed")
|}.

Definition request (sp : URLSearchParams) : NextRequest :=
  {| nextUrl := {| searchParams := sp |} |}.

Definition hello : JsString := `"Hello World".
Definition long_title : JsString := repeat 97%N 150.

Definition title_request (t : JsString) : NextRequest :=
  request [ (`"title", t) ].

(** The module scope and runtime a fresh process reaches under [online]
    and under [offline] (see [loaded_online] and [loaded_offline]). *)
Definition online_module : RouteModule :=
  {| interBold := mkPromise 2 (Fulfilled sample_font) |}.

Definition offline_module : RouteModule :=
  {| interBold := mkPromise 1 (Rejected (Error `"fetch failed")) |}.

Definition online_runtime : Runtime :=
  mkRuntime 3 [ EvFetch (font_url online) ].

Definition offline_runtime : Runtime :=
  mkRuntime 2 [ EvFetch (font_url offline) ].

(** The module as it stands after its body ran in a fresh process. *)
Definition loaded (env : Env) : option (RouteModule * Runtime) :=
  match module_init env initial_runtime with
  | (Normal m, rt) => Some (m, rt)
  | (Throw _, _) => None
  end.

(** The completion of one request in a freshly loaded process. *)
Definition first_response (env : Env) (req : NextRequest)
  : option (Completion Response) :=
  match loaded env with
  | Some (m, rt) => Some (fst (GET env m req rt))
  | None => None
  end.

(** ** The icon set (components/icons.tsx)

    [Icons.logo] draws the mark at 512 by 512 and lets the caller's props
    follow its own in the JSX, so that a caller's prop replaces the
    built-in one of the same name. *)






(** Every text of a tree, in document order. *)
Definition texts (n : Node) : list JsString := map fst (text_colors black n).

(** ** The authentication walk-through (content/blog, auth.ts and the
    server actions)

    The code of the post: the [authorized] callback, the credentials
    [authorize], and the [register] and [resetPassword] actions.  The user
    manager, the password hashing library and the console are outside the
    repository; they are taken as a record of services over an arbitrary
    world, each free to return, to throw and to change the world. *)

Module Tutorial.

(** [s.startsWith(p)] *)
Definition startsWith (s p : JsString) : bool :=
  match strip_prefix p s with
  | Some _ => true
  | None => false
  end.

(** The part of a [NextURL] the callback uses. *)
Record NextURL : Type := mkNextURL {
  origin : JsString;
  pathname : JsString;
  search : JsString
}.

(** [new URL(path, base)] for a path-absolute [path] without query: the
    origin of the base with the new path. *)
Definition new_URL (path : JsString) (base : NextURL) : NextURL :=
  mkNextURL (origin base) path [].

Record Session (U : Type) : Type := { user : option U }.
Arguments user {U} s.

(** What [authorized] returns: a boolean or a response. *)
Inductive AuthorizedResult : Type :=
| RBool (b : bool)
| RResponse (status : Z) (location : NextURL).

(** [Response.redirect(url)] *)
Definition Response_redirect (u : NextURL) : AuthorizedResult := RResponse 302 u.

(** [!!auth?.user] *)
Definition isLoggedIn {U} (auth : option (Session U)) : bool :=
  match auth with
  | Some s => match user s with Some _ => true | None => false end
  | None => false
  end.

Definition authorized {U} (auth : option (Session U)) (nextUrl : NextURL)
  : AuthorizedResult :=
  let isLoggedIn := isLoggedIn auth in
  let isProtected := startsWith (pathname nextUrl) `"/protected" in
  if isProtected then
    if isLoggedIn then RBool true
    else RBool false
  else if isLoggedIn then Response_redirect (new_URL `"/protected" nextUrl)
  else RBool true.

(** *** Services and the state they act on *)

(** A form or credentials field: a string, or null when the field is
    missing. *)
Definition Value := option JsString.

Section Actions.

Variables World Id : Type.

Record UserRow : Type := mkUserRow {
  id : Id;
  name : Value;
  email : Value;
  password : JsString
}.

(** The argument of [userManager.create]. *)
Record NewUser : Type := mkNewUser {
  new_email : Value;
  new_name : Value;
  new_password : JsString
}.

Record Services : Type := {
  findByEmail : Value -> World -> Completion (option UserRow) * World;
  create : NewUser -> World -> Completion unit * World;
  (** [update(id, { password })] *)
  update : Id -> JsString -> World -> Completion unit * World;
  genSaltSync : Z -> World -> Completion JsString * World;
  hashSync : Value -> JsString -> Completion JsString;
  compare : Value -> JsString -> Completion bool
}.

Inductive Call : Type :=
| CFindByEmail (e : Value)
| CCreate (u : NewUser)
| CUpdate (i : Id) (hash : JsString)
| CGenSalt (rounds : Z)
| CHash (p : Value) (salt : JsString)
| CCompare (p : Value) (hash : JsString)
| CConsoleError (label : JsString) (error : JsError).

Record St : Type := mkSt {
  world : World;
  calls : list Call
}.

Definition T (A : Type) : Type := St -> Completion A * St.

Definition ret {A} (a : A) : T A := fun st => (Normal a, st).

Definition bind {A B} (c : T A) (k : A -> T B) : T B :=
  fun st =>
    match c st with
    | (Normal a, st') => k a st'
    | (Throw e, st') => (Throw e, st')
    end.

Definition try_catch {A} (body : T A) (handler : JsError -> T A) : T A :=
  fun st =>
    match body st with
    | (Normal a, st') => (Normal a, st')
    | (Throw e, st') => handler e st'
    end.

Notation "x <~ c ;; k" := (bind c (fun x => k))
  (at level 61, c at next level, right associativity).

(** A call of a service: noted in the log, then run on the world. *)
Definition call {A} (c : Call) (op : World -> Completion A * World) : T A :=
  fun st =>
    let '(r, w) := op (world st) in
    (r, mkSt w (calls st ++ [c])).

Definition pure_call {A} (c : Call) (r : Completion A) : T A :=
  call c (fun w => (r, w)).

Variable sv : Services.

Definition console_error (label : JsString) (error : JsError) : T unit :=
  pure_call (CConsoleError label error) (Normal tt).

(** What [authorize] hands to the session. *)
Record Identity : Type := mkIdentity {
  identity_id : Id;
  identity_name : Value;
  identity_email : Value
}.

Record Credentials : Type := {
  cred_email : Value;
  cred_password : Value
}.

(** [authorize(credentials)] of the credentials provider; it has no
    try/catch of its own. *)
Definition authorize (credentials : Credentials) : T (option Identity) :=
  let email_ := cred_email credentials in
  let password_ := cred_password credentials in
  user <~ call (CFindByEmail email_) (findByEmail sv email_) ;;
  match user with
  | None => ret None
  | Some user =>
      passwordsMatch <~ pure_call (CCompare password_ (password user))
                          (compare sv password_ (password user)) ;;
      if passwordsMatch
      then ret (Some (mkIdentity (id user) (name user) (email user)))
      else ret None
  end.

(** The state a form action returns. *)
Record ActionState : Type := mkActionState {
  success : bool;
  message : JsString
}.

(** [FormData] with text fields only. *)
Definition FormData := list (JsString * JsString).

(** app/actions/register.ts *)
Definition register (prevState : option ActionState) (formData : FormData)
  : T ActionState :=
  try_catch
    (let name_ := get formData `"name" in
     let email_ := get formData `"email" in
     let password_ := get formData `"password" in
     existingUser <~ call (CFindByEmail email_) (findByEmail sv email_) ;;
     match existingUser with
     | Some _ => ret (mkActionState false `"User already exists.")
     | None =>
         salt <~ call (CGenSalt 10) (genSaltSync sv 10) ;;
         hash <~ pure_call (CHash password_ salt) (hashSync sv password_ salt) ;;
         _ <~ call (CCreate (mkNewUser email_ name_ hash))
                (create sv (mkNewUser email_ name_ hash)) ;;
         ret (mkActionState true `"Registration successful.")
     end)
    (fun error =>
       _ <~ console_error `"Error during registration:" error ;;
       ret (mkActionState false `"Something went wrong.")).

(** app/actions/reset-password.ts *)
Definition resetPassword (prevState : option ActionState) (formData : FormData)
  : T ActionState :=
  try_catch
    (let email_ := get formData `"email" in
     existingUser <~ call (CFindByEmail email_) (findByEmail sv email_) ;;
     match existingUser with
     | None => ret (mkActionState false `"User does not exist")
     | Some existingUser =>
         let password_ := get formData `"password" in
         salt <~ call (CGenSalt 10) (genSaltSync sv 10) ;;
         hash <~ pure_call (CHash password_ salt) (hashSync sv password_ salt) ;;
         _ <~ call (CUpdate (id existingUser) hash)
                (update sv (id existingUser) hash) ;;
         ret (mkActionState true `"Password reset successful.")
     end)
    (fun error =>
       _ <~ console_error `"Error during password reset:" error ;;
       ret (mkActionState false `"Something went wrong.")).

(** What the round trips ask of the services: a lookup after a
    completed [create] finds a row with the created email, name and
    password field; and [compare] accepts a password against what
    [hashSync] made of it with a salt of [genSaltSync]. *)
Definition finds_created : Prop :=
  forall nu w w',
    create sv nu w = (Normal tt, w') ->
    exists row w'',
      findByEmail sv (new_email nu) w' = (Normal (Some row), w'') /\
      email row = new_email nu /\ name row = new_name nu /\
      password row = new_password nu.

Definition accepts_own_hash : Prop :=
  forall rounds w w' salt p h,
    genSaltSync sv rounds w = (Normal salt, w') ->
    hashSync sv p salt = Normal h ->
    compare sv p h = Normal true.

(** *** Observations on the call log *)

Definition is_write (c : Call) : bool :=
  match c with
  | CCreate _ | CUpdate _ _ => true
  | _ => false
  end.

Definition writes (cs : list Call) : list Call := filter is_write cs.

End Actions.

Arguments mkUserRow {Id} id name email password.
Arguments id {Id} u.
Arguments name {Id} u.
Arguments email {Id} u.
Arguments password {Id} u.
Arguments findByEmail {World Id} s.
Arguments create {World Id} s.
Arguments update {World Id} s.
Arguments genSaltSync {World Id} s.
Arguments hashSync {World Id} s.
Arguments compare {World Id} s.
Arguments CFindByEmail {Id} e.
Arguments CCreate {Id} u.
Arguments CUpdate {Id} i hash.
Arguments CGenSalt {Id} rounds.
Arguments CHash {Id} p salt.
Arguments CCompare {Id} p hash.
Arguments CConsoleError {Id} label error.
Arguments mkSt {World Id} world calls.
Arguments world {World Id} s.
Arguments calls {World Id} s.
Arguments mkIdentity {Id} identity_id identity_name identity_email.
Arguments identity_id {Id} i.
Arguments identity_name {Id} i.
Arguments identity_email {Id} i.
Arguments finds_created {World Id} sv.
Arguments accepts_own_hash {World Id} sv.
Arguments authorize {World Id} sv credentials.
Arguments register {World Id} sv prevState formData.
Arguments resetPassword {World Id} sv prevState formData.
Arguments writes {Id} cs.

(** *** A sample store: rows in a list, numbered in order, with one row
    for an email at most, and a toy hash that prefixes the salt *)

Definition same (a b : Value) : bool :=
  match a, b with
  | Some x, Some y => Js.eqb x y
  | None, None => true
  | _, _ => false
  end.

Definition sample_hash (p : Value) (salt : JsString) : Completion JsString :=
  match p with
  | Some s => Normal (salt ++ s)
  | None => Throw (Error `"Illegal arguments")
  end.

Definition sample : Services (list (UserRow nat)) nat := {|
  findByEmail := fun e w => (Normal (find (fun r => same (email r) e) w), w);
  create := fun u w =>
    match find (fun r => same (email r) (new_email u)) w with
    | Some _ => (Throw (Error `"Unique constraint failed"), w)
    | None =>
        (Normal tt,
         w ++ [ mkUserRow (List.length w) (new_name u) (new_email u)
                  (new_password u) ])
    end;
  update := fun i h w =>
    (Normal tt,
     map (fun r => if Nat.eqb (id r) i
                   then mkUserRow (id r) (name r) (email r) h
                   else r) w);
  genSaltSync := fun _ w => (Normal `"salt$", w);
  hashSync := sample_hash;
  compare := fun p h =>
    match sample_hash p `"salt$" with
    | Normal h' => Normal (Js.eqb h h')
    | Throw e => Throw e
    end
|}.

(** A store that is down. *)
Definition down : Services (list (UserRow nat)) nat := {|
  findByEmail := fun _ w => (Throw (Error `"connection refused"), w);
  create := fun _ w => (Throw (Error `"connection refused"), w);
  update := fun _ _ w => (Throw (Error `"connection refused"), w);
  genSaltSync := fun _ w => (Normal `"salt$", w);
  hashSync := sample_hash;
  compare := fun _ _ => Normal false
|}.

Definition ada_form : FormData :=
  [ (`"name", `"Ada"); (`"email", `"ada@example.org"); (`"password", `"s3cret") ].

Definition ada_credentials : Credentials := {|
  cred_email := Some `"ada@example.org";
  cred_password := Some `"s3cret"
|}.

Definition empty : St (list (UserRow nat)) nat := mkSt [] [].

(** The state after Ada registered with the sample store. *)
Definition registered : St (list (UserRow nat)) nat :=
  snd (register sample None ada_form empty).

End Tutorial.

(** *** Facts about [substring] and [heading] *)

Lemma length_nat (s : JsString) : Js.length s = Z.of_nat (List.length s).
Proof. reflexivity. Qed.

Lemma substring_prefix (s : JsString) (n : Z) :
  0 <= n <= Js.length s -> Js.substring s 0 n = firstn (Z.to_nat n) s.
Proof.
  intros Hn. unfold Js.substring, Js.clamp.
  rewrite (Z.max_l 0 0) by lia.
  rewrite (Z.min_l 0 (Js.length s)) by lia.
  rewrite (Z.max_l n 0) by lia.
  rewrite (Z.min_l n (Js.length s)) by lia.
  rewrite (Z.min_l 0 n) by lia.
  rewrite (Z.max_r 0 n) by lia.
  rewrite Z.sub_0_r. reflexivity.
Qed.

Lemma heading_short (t : JsString) :
  Js.length t <= 140 -> heading t = t.
Proof.
  intros H. unfold heading.
  destruct (Js.length t >? 140) eqn:E; [ | reflexivity ].
  apply Z.gtb_lt in E. lia.
Qed.

Lemma heading_long (t : JsString) :
  Js.length t > 140 -> heading t = firstn 140 t ++ `"...".
Proof.
  intros H. unfold heading.
  destruct (Js.length t >? 140) eqn:E.
  - unfold Js.concat. rewrite substring_prefix by lia. reflexivity.
  - rewrite Z.gtb_ltb, Z.ltb_ge in E. lia.
Qed.

Lemma heading_long_length (t : JsString) :
  Js.length t > 140 -> Js.length (heading t) = 143.
Proof.
  intros H. rewrite heading_long by exact H.
  rewrite length_nat in *. rewrite length_app, length_firstn.
  change (List.length `"...") with 3%nat. lia.
Qed.


Lemma heading_length_le (t : JsString) : Js.length (heading t) <= 143.
Proof.
  destruct (Z_le_gt_dec (Js.length t) 140) as [H | H].
  - rewrite heading_short by exact H. lia.
  - rewrite heading_long_length by exact H. lia.
Qed.

(** *** The three paths through the handler *)

Section Paths.

Variables (env : Env) (m : RouteModule) (req : NextRequest) (rt : Runtime).

Let title := get (searchParams (nextUrl req)) `"title".
Let rt1 := logged rt (EvAwait (pid (interBold m))).

Lemma GET_font_rejected (e : JsError) :
  settled (interBold m) = Rejected e ->
  GET env m req rt = (Normal failed, rt1).
Proof.
  intros H. unfold GET, try_catch, await, bind, emit, throw.
  rewrite H. reflexivity.
Qed.

Lemma GET_missing_title (buf : ArrayBuffer) :
  settled (interBold m) = Fulfilled buf ->
  Js.not_ title = true ->
  GET env m req rt = (Normal no_title, rt1).
Proof.
  intros H Ht. unfold GET, try_catch, await, bind, emit, ret.
  rewrite H. fold title. rewrite Ht. reflexivity.
Qed.

Lemma GET_with_title (buf : ArrayBuffer) (t : JsString) :
  settled (interBold m) = Fulfilled buf ->
  title = Some t ->
  Js.length t <> 0 ->
  GET env m req rt =
    (Normal match image_response_throws env (card (heading t)) (card_options buf) with
            | Some _ => failed
            | None => mkResponse 200 (BImage (card (heading t)) (card_options buf))
            end,
     logged rt1 (EvImageResponse (card (heading t)) (card_options buf))).
Proof.
  intros H Ht Hne.
  unfold GET, try_catch, await, new_ImageResponse, bind, emit, ret, throw.
  rewrite H. fold title. rewrite Ht. unfold Js.not_.
  apply Z.eqb_neq in Hne. rewrite Hne.
  destruct (image_response_throws env _ _); reflexivity.
Qed.

(** The handler returns a response on every path, and it is one of three. *)
Lemma GET_cases :
  (GET env m req rt = (Normal failed, rt1)) \/
  (GET env m req rt = (Normal no_title, rt1)) \/
  (exists buf t,
      settled (interBold m) = Fulfilled buf /\ title = Some t /\
      Js.length t <> 0 /\
      ((GET env m req rt =
          (Normal failed,
           logged rt1 (EvImageResponse (card (heading t)) (card_options buf)))) \/
       (image_response_throws env (card (heading t)) (card_options buf) = None /\
        GET env m req rt =
          (Normal (mkResponse 200 (BImage (card (heading t)) (card_options buf))),
           logged rt1 (EvImageResponse (card (heading t)) (card_options buf)))))).
Proof.
  destruct (settled (interBold m)) as [buf | e] eqn:Hs.
  - destruct (Js.not_ title) eqn:Hn.
    + right; left. exact (GET_missing_title buf Hs Hn).
    + right; right.
      destruct title as [t | ] eqn:Ht; [ | discriminate Hn ].
      simpl in Hn. apply Z.eqb_neq in Hn.
      exists buf, t. repeat split; try assumption.
      rewrite (GET_with_title buf t Hs Ht Hn).
      destruct (image_response_throws env _ _); [ left | right; split ]; reflexivity.
  - left. exact (GET_font_rejected e Hs).
Qed.

End Paths.

(** Two handler results with different responses cannot be equal. *)
Ltac clash H :=
  let Hr := fresh "Hr" in
  pose proof (f_equal fst H) as Hr; cbn [fst] in Hr;
  vm_compute in Hr; discriminate Hr.

(** Case analysis of a returned response [HG : GET ... = (Normal r, rt')]
    along the paths of the handler; [r] is replaced by the response of
    the path. *)
Ltac GET_paths env m req rt HG :=
  let E := fresh "E" in
  let buf := fresh "buf" in
  let t := fresh "t" in
  destruct (GET_cases env m req rt)
    as [E | [E | (buf & t & _ & _ & _ & [E | [_ E]])]];
  rewrite E in HG; injection HG as <- _.

Lemma heading_text_card (h : JsString) : heading_text (card h) = Some h.
Proof. reflexivity. Qed.

(** ** The heading *)

(** C1: a non-empty title of at most 140 characters is rendered unchanged,
    and a title of more than 140 characters is rendered as its first 140
    characters followed by the three dots.  Stated on the handler: with the
    font fulfilled and the image constructor not throwing, the response is
    returned and the heading text of its layout is as said. *)
Theorem heading_rendered (env : Env) (m : RouteModule) (req : NextRequest)
    (rt : Runtime) (t : JsString) (buf : ArrayBuffer) :
  get (searchParams (nextUrl req)) `"title" = Some t ->
  settled (interBold m) = Fulfilled buf ->
  image_response_throws env (card (heading t)) (card_options buf) = None ->
  (0 < Js.length t <= 140 ->
   exists r rt', GET env m req rt = (Normal r, rt') /\
                 rendered_heading r = Some t) /\
  (Js.length t > 140 ->
   exists r rt', GET env m req rt = (Normal r, rt') /\
                 rendered_heading r = Some (firstn 140 t ++ `"...")).
Proof.
  intros Ht Hs Hok. split; intros Hlen.
  - rewrite (GET_with_title env m req rt buf t Hs Ht) by lia.
    rewrite Hok. eexists _, _. split; [ reflexivity | ].
    unfold rendered_heading. cbn [body]. rewrite heading_text_card.
    rewrite heading_short by lia. reflexivity.
  - rewrite (GET_with_title env m req rt buf t Hs Ht) by lia.
    rewrite Hok. eexists _, _. split; [ reflexivity | ].
    unfold rendered_heading. cbn [body]. rewrite heading_text_card.
    rewrite heading_long by lia. reflexivity.
Qed.

Lemma heading_rendered_witness :
  (exists r rt',
      GET online online_module (title_request hello) online_runtime
        = (Normal r, rt') /\
      rendered_heading r = Some hello) /\
  (exists r rt',
      GET online online_module (title_request long_title) online_runtime
        = (Normal r, rt') /\
      rendered_heading r = Some (firstn 140 long_title ++ `"...")).
Proof.
  split.
  - apply (heading_rendered online online_module (title_request hello)
             online_runtime hello sample_font);
      [ reflexivity | reflexivity | reflexivity | ].
    rewrite (eq_refl : Js.length hello = 11). lia.
  - apply (heading_rendered online online_module (title_request long_title)
             online_runtime long_title sample_font);
      [ reflexivity | reflexivity | reflexivity | ].
    rewrite (eq_refl : Js.length long_title = 150). lia.
Defined.

(** C7: the heading handed to the rendering layer is never longer than 143
    characters: for a title of more than 140 characters it is the first 140
    characters and the 3 of the marker, otherwise it is the title itself;
    and the heading text of every response the handler returns obeys the
    bound. *)
Theorem heading_at_most_143 (t : JsString) :
  Js.length (heading t) <= 143 /\
  (Js.length t > 140 ->
     heading t = firstn 140 t ++ `"..." /\
     Js.length (firstn 140 t) = 140 /\ Js.length `"..." = 3) /\
  (Js.length t <= 140 -> heading t = t) /\
  (forall env m req rt r rt' h,
      GET env m req rt = (Normal r, rt') ->
      rendered_heading r = Some h -> Js.length h <= 143).
Proof.
  split; [ apply heading_length_le | ].
  split; [ | split ].
  - intros H. split; [ apply heading_long; exact H | ].
    split; [ | reflexivity ].
    rewrite length_nat in *. rewrite length_firstn. lia.
  - apply heading_short.
  - intros env m req rt r rt' h HG Hh.
    GET_paths env m req rt HG; try discriminate Hh.
    unfold rendered_heading in Hh. cbn [body] in Hh.
    rewrite heading_text_card in Hh. injection Hh as <-.
    apply heading_length_le.
Qed.

Lemma heading_at_most_143_witness :
  heading long_title = firstn 140 long_title ++ `"..." /\
  Js.length (firstn 140 long_title) = 140 /\ Js.length `"..." = 3.
Proof.
  apply (proj1 (proj2 (heading_at_most_143 long_title))).
  rewrite (eq_refl : Js.length long_title = 150). lia.
Defined.

(** C9: truncating twice is the same as truncating once. *)
Theorem heading_idempotent (t : JsString) :
  heading (heading t) = heading t.
Proof.
  destruct (Z_le_gt_dec (Js.length t) 140) as [H | H].
  - rewrite (heading_short t H). apply heading_short. exact H.
  - rewrite (heading_long (heading t))
      by (rewrite heading_long_length by exact H; lia).
    rewrite (heading_long t H).
    rewrite firstn_app, firstn_firstn, length_firstn.
    rewrite length_nat in H.
    replace (140 - Nat.min 140 (List.length t))%nat with 0%nat by lia.
    rewrite Nat.min_id, firstn_O, app_nil_r. reflexivity.
Qed.

(** C10: a title of exactly 141 or 142 characters gets a heading of 143
    characters, longer than the title; and every title of more than 140
    characters gets a heading of exactly 143 characters. *)
Theorem heading_can_grow (t : JsString) :
  (Js.length t = 141 \/ Js.length t = 142 ->
     Js.length (heading t) = 143 /\ Js.length (heading t) > Js.length t) /\
  (Js.length t > 140 -> Js.length (heading t) = 143).
Proof.
  split.
  - intros H. rewrite heading_long_length by lia. lia.
  - apply heading_long_length.
Qed.

Lemma heading_can_grow_witness :
  Js.length (heading (repeat 97%N 141)) = 143 /\
  Js.length (heading (repeat 97%N 141)) > Js.length (repeat 97%N 141).
Proof.
  apply (proj1 (heading_can_grow (repeat 97%N 141))).
  left. reflexivity.
Defined.

(** ** The missing title *)

Lemma loaded_online : loaded online = Some (online_module, online_runtime).
Proof. reflexivity. Qed.

Lemma loaded_offline : loaded offline = Some (offline_module, offline_runtime).
Proof. reflexivity. Qed.

Lemma no_title_not_failed : no_title <> failed.
Proof. intros H. vm_compute in H. discriminate H. Qed.

Lemma renders_logged_await (rt : Runtime) (p : nat) :
  renders (trace (logged rt (EvAwait p))) = renders (trace rt).
Proof.
  unfold renders, logged. cbn [trace]. rewrite filter_app. cbn. apply app_nil_r.
Qed.

(** C2 as stated fails: in a process whose font fetch was rejected, a
    request without a title gets the generic failure text, not the
    missing title text. *)
Lemma missing_title_offline_counterexample :
  Js.not_ (get (searchParams (nextUrl (request []))) `"title") = true /\
  loaded offline = Some (offline_module, offline_runtime) /\
  GET offline offline_module (request []) offline_runtime
    = (Normal failed, logged offline_runtime (EvAwait 1)) /\
  ~ (exists rt',
        GET offline offline_module (request []) offline_runtime
          = (Normal no_title, rt')).
Proof.
  split; [ reflexivity | ]. split; [ reflexivity | ].
  split.
  - exact (GET_font_rejected offline offline_module (request [])
             offline_runtime (Error `"fetch failed") eq_refl).
  - intros [rt' H].
    rewrite (GET_font_rejected offline offline_module (request [])
               offline_runtime (Error `"fetch failed") eq_refl) in H.
    clash H.
Qed.

(** C2, amended: a request whose title is absent or empty always gets a
    response of status 500 with a text body, and no image is generated;
    the text is the missing title text when the font promise fulfilled and
    the generic failure text when it rejected. *)
Theorem missing_title_response (env : Env) (m : RouteModule)
    (req : NextRequest) (rt : Runtime) :
  Js.not_ (get (searchParams (nextUrl req)) `"title") = true ->
  exists r rt',
    GET env m req rt = (Normal r, rt') /\
    status r = 500 /\ is_image r = false /\
    renders (trace rt') = renders (trace rt) /\
    (forall buf, settled (interBold m) = Fulfilled buf ->
                 body r = BText `"No title provided") /\
    (forall e, settled (interBold m) = Rejected e ->
               body r = BText `"Failed to generate image").
Proof.
  intros Ht. destruct (settled (interBold m)) as [buf | e] eqn:Hs.
  - exists no_title, (logged rt (EvAwait (pid (interBold m)))).
    split; [ exact (GET_missing_title env m req rt buf Hs Ht) | ].
    repeat split; try apply renders_logged_await; intros; discriminate.
  - exists failed, (logged rt (EvAwait (pid (interBold m)))).
    split; [ exact (GET_font_rejected env m req rt e Hs) | ].
    repeat split; try apply renders_logged_await; intros; discriminate.
Qed.

Lemma missing_title_response_witness :
  exists r rt',
    GET online online_module (title_request []) online_runtime
      = (Normal r, rt') /\
    status r = 500 /\ is_image r = false /\
    renders (trace rt') = renders (trace online_runtime) /\
    (forall buf, settled (interBold online_module) = Fulfilled buf ->
                 body r = BText `"No title provided") /\
    (forall e, settled (interBold online_module) = Rejected e ->
               body r = BText `"Failed to generate image").
Proof.
  apply (missing_title_response online online_module (title_request [])
           online_runtime).
  reflexivity.
Defined.

(** C3 as stated fails: the response to a request without a title depends
    on the outcome of the font retrieval, which the handler awaits before
    it looks at the title. *)
Lemma missing_title_depends_on_font :
  Js.not_ (get (searchParams (nextUrl (request []))) `"title") = true /\
  first_response online (request []) = Some (Normal no_title) /\
  first_response offline (request []) = Some (Normal failed) /\
  first_response online (request []) <> first_response offline (request []).
Proof.
  split; [ reflexivity | ]. split; [ reflexivity | ]. split; [ reflexivity | ].
  change (Some (Normal no_title) <> Some (Normal failed)).
  intros H. vm_compute in H. discriminate H.
Qed.

(** C3, amended: once the font promise has fulfilled, a request whose
    title is absent or empty gets the missing title response, distinct
    from the failure response, without an image response being
    constructed and whatever the image constructor or the network would
    do; the font promise is awaited first. *)
Theorem missing_title_before_rendering (env : Env) (m : RouteModule)
    (req : NextRequest) (rt : Runtime) (buf : ArrayBuffer) :
  Js.not_ (get (searchParams (nextUrl req)) `"title") = true ->
  settled (interBold m) = Fulfilled buf ->
  GET env m req rt = (Normal no_title, logged rt (EvAwait (pid (interBold m)))) /\
  (forall env', GET env' m req rt = GET env m req rt) /\
  renders (trace (snd (GET env m req rt))) = renders (trace rt) /\
  no_title <> failed.
Proof.
  intros Ht Hs.
  pose proof (fun e => GET_missing_title e m req rt buf Hs Ht) as HG.
  split; [ apply HG | ].
  split; [ intros env'; rewrite (HG env'), (HG env); reflexivity | ].
  split; [ rewrite (HG env); apply renders_logged_await | ].
  exact no_title_not_failed.
Qed.

Lemma missing_title_before_rendering_witness :
  GET broken_renderer online_module (request []) online_runtime
    = (Normal no_title, logged online_runtime (EvAwait 2)) /\
  (forall env', GET env' online_module (request []) online_runtime
                = GET broken_renderer online_module (request []) online_runtime) /\
  renders (trace (snd (GET broken_renderer online_module (request [])
                         online_runtime)))
    = renders (trace online_runtime) /\
  no_title <> failed.
Proof.
  apply (missing_title_before_rendering broken_renderer online_module
           (request []) online_runtime sample_font);
    reflexivity.
Defined.

(** ** The fault boundary *)

(** C4: whatever the font promise and the image constructor do, the
    handler returns a response and throws nothing; the response is the
    image response, the missing title response or the failure response;
    a rejected font promise and a throwing image constructor both end in
    the failure response, status 500. *)
Theorem GET_three_outcomes (env : Env) (m : RouteModule) (req : NextRequest)
    (rt : Runtime) :
  exists r rt',
    GET env m req rt = (Normal r, rt') /\
    (r = no_title \/ r = failed \/
     exists t buf, r = mkResponse 200 (BImage (card (heading t)) (card_options buf))) /\
    (forall e, settled (interBold m) = Rejected e -> r = failed) /\
    (forall buf t e,
        settled (interBold m) = Fulfilled buf ->
        get (searchParams (nextUrl req)) `"title" = Some t ->
        Js.length t <> 0 ->
        image_response_throws env (card (heading t)) (card_options buf) = Some e ->
        r = failed) /\
    status failed = 500 /\ body failed = BText `"Failed to generate image".
Proof.
  destruct (GET_cases env m req rt)
    as [E | [E | (buf & t & Hs & Ht & Hne & [E | [Hok E]])]];
    rewrite E; eexists _, _; (split; [ reflexivity | ]).
  - repeat split; auto.
  - split; [ auto | ]. split; [ | split; [ | split; reflexivity ] ].
    + intros e Hs.
      rewrite (GET_font_rejected env m req rt e Hs) in E.
      clash E.
    + intros buf t e Hs Ht Hne Hthrow.
      rewrite (GET_with_title env m req rt buf t Hs Ht Hne), Hthrow in E.
      clash E.
  - repeat split; auto.
  - split; [ right; right; exists t, buf; reflexivity | ].
    split; [ | split; [ | split; reflexivity ] ].
    + intros e Hs'. rewrite Hs' in Hs. discriminate Hs.
    + intros buf' t' e Hs' Ht' _ Hthrow.
      rewrite Hs' in Hs. injection Hs as ->.
      rewrite Ht' in Ht. injection Ht as ->.
      rewrite Hthrow in Hok. discriminate Hok.
Qed.

Lemma GET_three_outcomes_witness :
  exists r rt',
    GET broken_renderer online_module (title_request hello) online_runtime
      = (Normal r, rt') /\
    r = failed.
Proof.
  destruct (GET_three_outcomes broken_renderer online_module
              (title_request hello) online_runtime)
    as (r & rt' & E & _ & _ & Hthrow & _).
  exists r, rt'. split; [ exact E | ].
  apply (Hthrow sample_font hello (Error `"render failed"));
    [ reflexivity | reflexivity | | reflexivity ].
  rewrite (eq_refl : Js.length hello = 11). lia.
Defined.

(** ** The font promise *)

Lemma fetches_app (a b : list Event) : fetches (a ++ b) = fetches a ++ fetches b.
Proof. apply filter_app. Qed.

Lemma awaited_app (a b : list Event) : awaited (a ++ b) = awaited a ++ awaited b.
Proof.
  induction a as [ | e a IH ]; [ reflexivity | ].
  destruct e; cbn; rewrite IH; reflexivity.
Qed.

(** The module body always completes: one fetch of the font URL, and a
    promise that carries the bytes or the rejection. *)
Lemma module_init_spec (env : Env) :
  exists m rt0,
    module_init env initial_runtime = (Normal m, rt0) /\
    trace rt0 = [ EvFetch (font_url env) ] /\
    settled (interBold m) =
      match network env (font_url env) with
      | Fulfilled res => body_bytes res
      | Rejected e => Rejected e
      end.
Proof.
  unfold module_init, fetch, then_, arrayBuffer, bind, emit, fresh_promise, ret.
  cbn. destruct (network env (font_url env)) as [res | e]; cbn;
    eexists _, _; repeat split.
Qed.

(** One request adds one await of the module's promise to the trace, and
    no fetch. *)
Lemma GET_trace (env : Env) (m : RouteModule) (req : NextRequest) (rt : Runtime) :
  fetches (trace (snd (GET env m req rt))) = fetches (trace rt) /\
  awaited (trace (snd (GET env m req rt)))
    = awaited (trace rt) ++ [ pid (interBold m) ].
Proof.
  destruct (GET_cases env m req rt)
    as [E | [E | (buf & t & _ & _ & _ & [E | [_ E]])]];
    rewrite E; cbn [snd logged trace];
    rewrite ?fetches_app, ?awaited_app; cbn; rewrite ?app_nil_r; split; reflexivity.
Qed.

Lemma serve_trace (env : Env) (m : RouteModule) (reqs : list NextRequest) :
  forall rt,
    fetches (trace (snd (serve env m reqs rt))) = fetches (trace rt) /\
    awaited (trace (snd (serve env m reqs rt)))
      = awaited (trace rt) ++ repeat (pid (interBold m)) (List.length reqs) /\
    List.length (fst (serve env m reqs rt)) = List.length reqs.
Proof.
  induction reqs as [ | req rest IH ]; intros rt.
  - cbn. rewrite app_nil_r. repeat split.
  - cbn [serve].
    destruct (GET env m req rt) as [c rt1] eqn:EG.
    destruct (serve env m rest rt1) as [cs rt2] eqn:ES.
    destruct (IH rt1) as (Hf & Ha & Hl). rewrite ES in Hf, Ha, Hl.
    destruct (GET_trace env m req rt) as [Gf Ga]. rewrite EG in Gf, Ga.
    cbn [fst snd] in *. rewrite Hf, Gf, Ha, Ga, <- app_assoc.
    cbn [List.length repeat app]. rewrite Hl. repeat split.
Qed.

(** C5: the font is fetched once, when the module body runs; every
    request awaits the promise bound at module scope then, and however
    many requests the process serves the trace holds that one fetch. *)
Theorem font_fetched_once (env : Env) (reqs : list NextRequest) :
  exists m rt0,
    module_init env initial_runtime = (Normal m, rt0) /\
    fetches (trace rt0) = [ EvFetch (font_url env) ] /\
    fetches (trace (snd (serve env m reqs rt0))) = [ EvFetch (font_url env) ] /\
    awaited (trace (snd (serve env m reqs rt0)))
      = repeat (pid (interBold m)) (List.length reqs) /\
    List.length (fst (serve env m reqs rt0)) = List.length reqs.
Proof.
  destruct (module_init_spec env) as (m & rt0 & Hinit & Htr & _).
  exists m, rt0. split; [ exact Hinit | ].
  destruct (serve_trace env m reqs rt0) as (Hf & Ha & Hl).
  rewrite Hf, Ha, Htr. repeat split; assumption.
Qed.

(** ** The canvas *)

(** C6: every image response the handler returns is 800 wide and 400
    tall, whatever the title. *)
Theorem image_is_800_by_400 (env : Env) (m : RouteModule) (req : NextRequest)
    (rt : Runtime) (r : Response) (rt' : Runtime) :
  GET env m req rt = (Normal r, rt') ->
  is_image r = true ->
  image_dimensions r = Some (800, 400).
Proof.
  intros HG Hi.
  GET_paths env m req rt HG; try discriminate Hi; reflexivity.
Qed.

Lemma image_is_800_by_400_witness :
  image_dimensions
    (mkResponse 200 (BImage (card (heading long_title)) (card_options sample_font)))
  = Some (800, 400).
Proof.
  apply (image_is_800_by_400 online online_module (title_request long_title)
           online_runtime _
           (logged (logged online_runtime (EvAwait 2))
              (EvImageResponse (card (heading long_title))
                 (card_options sample_font))));
    reflexivity.
Defined.

(** ** The colours *)

Lemma card_palette (h : JsString) (d : Color) :
  background (card h) = Some white /\
  map snd (text_colors d (card h)) = [ black; black; black ] /\
  stroke_colors d (card h) = [ Some (rgb 46 120 201); Some (rgb 46 120 201) ].
Proof. repeat split. Qed.

(** C8 as stated fails: the strokes of the mark are drawn in the colour
    #2e78c9, red 46, green 120, blue 201, not in black. *)
Lemma logo_stroke_not_black :
  stroke_colors black (card hello)
    = [ Some (rgb 46 120 201); Some (rgb 46 120 201) ] /\
  ~ (background (card hello) = Some white /\
     Forall (fun tc => snd tc = black) (text_colors black (card hello)) /\
     Forall (fun c => c = Some black) (stroke_colors black (card hello))).
Proof.
  split; [ reflexivity | ].
  intros (_ & _ & H).
  destruct (card_palette hello black) as (_ & _ & Hs). rewrite Hs in H.
  apply Forall_inv in H. discriminate H.
Qed.

(** C8, amended: in the layout of every image response the handler
    returns, the container background is white, every text is drawn in
    black, and the two strokes of the mark are drawn in #2e78c9. *)
Theorem card_colors (env : Env) (m : RouteModule) (req : NextRequest)
    (rt : Runtime) (r : Response) (rt' : Runtime) (el : Node)
    (o : ImageOptions) (d : Color) :
  GET env m req rt = (Normal r, rt') ->
  body r = BImage el o ->
  background el = Some white /\
  Forall (fun tc => snd tc = black) (text_colors d el) /\
  stroke_colors d el = [ Some (rgb 46 120 201); Some (rgb 46 120 201) ].
Proof.
  intros HG Hb.
  GET_paths env m req rt HG; try discriminate Hb.
  cbn [body] in Hb. injection Hb as <- _.
  match goal with
  | |- context [card ?h] => destruct (card_palette h d) as (Hbg & Htx & Hst)
  end.
  split; [ exact Hbg | ]. split; [ | exact Hst ].
  apply Forall_forall. intros tc Hin.
  apply (in_map snd) in Hin. rewrite Htx in Hin.
  cbn in Hin. intuition congruence.
Qed.

Lemma card_colors_witness :
  background (card (heading hello)) = Some white /\
  Forall (fun tc => snd tc = black) (text_colors white (card (heading hello))) /\
  stroke_colors white (card (heading hello))
    = [ Some (rgb 46 120 201); Some (rgb 46 120 201) ].
Proof.
  apply (card_colors online online_module (title_request hello) online_runtime
           (mkResponse 200 (BImage (card (heading hello)) (card_options sample_font)))
           (logged (logged online_runtime (EvAwait 2))
              (EvImageResponse (card (heading hello)) (card_options sample_font)))
           (card (heading hello)) (card_options sample_font) white);
    reflexivity.
Defined.

(** * Further properties of the code *)

(** ** More on the heading *)

(** The titles the truncation leaves as they are: those of at most 140
    characters, and those of 143 characters that already end in the three
    dots. *)
Theorem heading_fixed_points (t : JsString) :
  heading t = t <->
  Js.length t <= 140 \/ (Js.length t = 143 /\ skipn 140 t = `"...").
Proof.
  split.
  - intros H. destruct (Z_le_gt_dec (Js.length t) 140) as [Hl | Hl];
      [ left; exact Hl | right ].
    pose proof (heading_long_length t Hl) as Hlen. rewrite H in Hlen.
    split; [ exact Hlen | ].
    rewrite (heading_long t Hl) in H.
    rewrite <- (firstn_skipn 140 t) in H at 2.
    apply app_inv_head in H. symmetry. exact H.
  - intros [Hl | [Hl Hs]].
    + apply heading_short. exact Hl.
    + rewrite heading_long by lia. rewrite <- Hs. apply firstn_skipn.
Qed.

(** The heading keeps the first 140 characters of the title, and two
    titles of more than 140 characters get the same heading exactly when
    they agree on their first 140 characters. *)
Theorem heading_keeps_prefix (t1 t2 : JsString) :
  firstn 140 (heading t1) = firstn 140 t1 /\
  (Js.length t1 > 140 -> Js.length t2 > 140 ->
   (heading t1 = heading t2 <-> firstn 140 t1 = firstn 140 t2)).
Proof.
  split.
  - destruct (Z_le_gt_dec (Js.length t1) 140) as [Hl | Hl].
    + rewrite heading_short by exact Hl. reflexivity.
    + rewrite heading_long by exact Hl.
      rewrite length_nat in Hl.
      rewrite firstn_app, firstn_firstn, length_firstn.
      replace (140 - Nat.min 140 (List.length t1))%nat with 0%nat by lia.
      rewrite Nat.min_id, firstn_O, app_nil_r. reflexivity.
  - intros H1 H2. rewrite (heading_long t1 H1), (heading_long t2 H2). split.
    + intros H. apply app_inv_tail in H. exact H.
    + intros H. rewrite H. reflexivity.
Qed.

Lemma heading_keeps_prefix_witness :
  heading long_title = heading (long_title ++ `"tail") <->
  firstn 140 long_title = firstn 140 (long_title ++ `"tail").
Proof.
  apply (proj2 (heading_keeps_prefix long_title (long_title ++ `"tail"))).
  - rewrite (eq_refl : Js.length long_title = 150). lia.
  - rewrite (eq_refl : Js.length (long_title ++ `"tail") = 154). lia.
Defined.

(** ** The font, from the module body to the image *)

(** When the fetch of the module body fulfils and the body of its
    response reads as the bytes [b], every image response of the process
    embeds one font: Inter, weight 700, style normal, with the bytes
    [b]. *)
Theorem font_bytes_reach_image (env : Env) (res : FetchResponse) (b : ArrayBuffer) :
  network env (font_url env) = Fulfilled res ->
  body_bytes res = Fulfilled b ->
  exists m rt0,
    module_init env initial_runtime = (Normal m, rt0) /\
    forall req rt r rt' el o,
      GET env m req rt = (Normal r, rt') ->
      body r = BImage el o ->
      fonts o = [ {| font_name := `"Inter"; font_data := b;
                     font_style := `"normal"; font_weight := 700 |} ].
Proof.
  intros Hn Hb.
  destruct (module_init_spec env) as (m & rt0 & Hinit & _ & Hs).
  rewrite Hn, Hb in Hs.
  exists m, rt0. split; [ exact Hinit | ].
  intros req rt r rt' el o HG Hbody.
  destruct (GET_cases env m req rt)
    as [E | [E | (buf & t & Hs' & _ & _ & [E | [_ E]])]];
    rewrite E in HG; injection HG as <- _; try discriminate Hbody.
  cbn [body] in Hbody. injection Hbody as _ <-.
  rewrite Hs in Hs'. injection Hs' as <-. reflexivity.
Qed.

Lemma font_bytes_reach_image_witness :
  exists m rt0,
    module_init online initial_runtime = (Normal m, rt0) /\
    forall req rt r rt' el o,
      GET online m req rt = (Normal r, rt') ->
      body r = BImage el o ->
      fonts o = [ {| font_name := `"Inter"; font_data := sample_font;
                     font_style := `"normal"; font_weight := 700 |} ].
Proof.
  apply (font_bytes_reach_image online
           {| body_bytes := Fulfilled sample_font |} sample_font);
    reflexivity.
Defined.

Lemma serve_font_rejected (env : Env) (m : RouteModule) (e : JsError)
    (reqs : list NextRequest) :
  settled (interBold m) = Rejected e ->
  forall rt,
    fst (serve env m reqs rt) = repeat (Normal failed) (List.length reqs) /\
    renders (trace (snd (serve env m reqs rt))) = renders (trace rt).
Proof.
  intros Hs. induction reqs as [ | req rest IH ]; intros rt.
  - split; reflexivity.
  - cbn [serve]. rewrite (GET_font_rejected env m req rt e Hs).
    destruct (serve env m rest (logged rt (EvAwait (pid (interBold m)))))
      as [cs rt2] eqn:ES.
    destruct (IH (logged rt (EvAwait (pid (interBold m))))) as [Hc Hr].
    rewrite ES in Hc, Hr. cbn [fst snd] in *.
    rewrite Hc, Hr, renders_logged_await. split; reflexivity.
Qed.

(** A font that failed to load fails every request of the process: when
    the fetch of the module body is rejected, or the body of its response
    cannot be read, every request, with or without a title, gets the
    failure response and no image response is ever constructed. *)
Theorem font_failure_is_permanent (env : Env) (e : JsError)
    (reqs : list NextRequest) :
  (network env (font_url env) = Rejected e \/
   exists res, network env (font_url env) = Fulfilled res /\
               body_bytes res = Rejected e) ->
  exists m rt0,
    module_init env initial_runtime = (Normal m, rt0) /\
    fst (serve env m reqs rt0) = repeat (Normal failed) (List.length reqs) /\
    renders (trace (snd (serve env m reqs rt0))) = [].
Proof.
  intros H.
  destruct (module_init_spec env) as (m & rt0 & Hinit & Htr & Hs).
  assert (Hrej : settled (interBold m) = Rejected e).
  { destruct H as [H | (res & H & Hb)]; rewrite H in Hs; congruence. }
  exists m, rt0. split; [ exact Hinit | ].
  destruct (serve_font_rejected env m e reqs Hrej rt0) as [Hc Hr].
  split; [ exact Hc | ]. rewrite Hr, Htr. reflexivity.
Qed.

Lemma font_failure_is_permanent_witness :
  exists m rt0,
    module_init offline initial_runtime = (Normal m, rt0) /\
    fst (serve offline m [ title_request hello; request [] ] rt0)
      = repeat (Normal failed) 2 /\
    renders (trace (snd (serve offline m [ title_request hello; request [] ] rt0)))
      = [].
Proof.
  apply (font_failure_is_permanent offline (Error `"fetch failed")
           [ title_request hello; request [] ]).
  left. reflexivity.
Defined.

Lemma renders_logged_render (rt : Runtime) (el : Node) (o : ImageOptions) :
  renders (trace (logged rt (EvImageResponse el o)))
    = renders (trace rt) ++ [ EvImageResponse el o ].
Proof.
  unfold renders, logged. cbn [trace]. rewrite filter_app. reflexivity.
Qed.

(** One request constructs at most one image response: exactly one, of
    the card of the truncated title with the font bytes, when the font
    promise fulfilled and the title is a non-empty string, and none when
    the font promise rejected or the title is absent or empty. *)
Theorem GET_renders_at_most_once (env : Env) (m : RouteModule)
    (req : NextRequest) (rt : Runtime) :
  (exists buf t,
      settled (interBold m) = Fulfilled buf /\
      get (searchParams (nextUrl req)) `"title" = Some t /\
      Js.length t <> 0 /\
      renders (trace (snd (GET env m req rt)))
        = renders (trace rt)
            ++ [ EvImageResponse (card (heading t)) (card_options buf) ]) \/
  (((exists e, settled (interBold m) = Rejected e) \/
    Js.not_ (get (searchParams (nextUrl req)) `"title") = true) /\
   renders (trace (snd (GET env m req rt))) = renders (trace rt)).
Proof.
  destruct (settled (interBold m)) as [buf | e] eqn:Hs.
  - destruct (Js.not_ (get (searchParams (nextUrl req)) `"title")) eqn:Hn.
    + right. split; [ right; reflexivity | ].
      rewrite (GET_missing_title env m req rt buf Hs Hn).
      apply renders_logged_await.
    + left. destruct (get (searchParams (nextUrl req)) `"title") as [t | ] eqn:Ht;
        [ | discriminate Hn ].
      cbn in Hn. apply Z.eqb_neq in Hn.
      exists buf, t. repeat split; try assumption.
      rewrite (GET_with_title env m req rt buf t Hs Ht Hn). cbn [snd].
      rewrite renders_logged_render, renders_logged_await. reflexivity.
  - right. split; [ left; exists e; reflexivity | ].
    rewrite (GET_font_rejected env m req rt e Hs).
    apply renders_logged_await.
Qed.

(** ** The card and the icon *)

(** Every image response shows three texts, in this order: the name of
    the site as config/site.ts has it, the heading made of the title of
    the request, which is a non-empty string, and the URL of the site. *)
Theorem image_texts (env : Env) (m : RouteModule) (req : NextRequest)
    (rt : Runtime) (r : Response) (rt' : Runtime) (el : Node)
    (o : ImageOptions) :
  GET env m req rt = (Normal r, rt') ->
  body r = BImage el o ->
  exists t,
    get (searchParams (nextUrl req)) `"title" = Some t /\
    Js.length t <> 0 /\
    texts el = [ name siteConfig; heading t; url siteConfig ].
Proof.
  intros HG Hb.
  destruct (GET_cases env m req rt)
    as [E | [E | (buf & t & _ & Ht & Hne & [E | [_ E]])]];
    rewrite E in HG; injection HG as <- _; try discriminate Hb.
  cbn [body] in Hb. injection Hb as <- _.
  exists t. split; [ exact Ht | ]. split; [ exact Hne | reflexivity ].
Qed.

Lemma image_texts_witness :
  exists t,
    get (searchParams (nextUrl (title_request long_title))) `"title" = Some t /\
    Js.length t <> 0 /\
    texts (card (heading long_title))
      = [ name siteConfig; heading t; url siteConfig ].
Proof.
  apply (image_texts online online_module (title_request long_title)
           online_runtime
           (mkResponse 200 (BImage (card (heading long_title))
                              (card_options sample_font)))
           (logged (logged online_runtime (EvAwait 2))
              (EvImageResponse (card (heading long_title))
                 (card_options sample_font)))
           (card (heading long_title)) (card_options sample_font));
    reflexivity.
Defined.

Lemma eqb_eq (a b : JsString) : Js.eqb a b = true <-> a = b.
Proof.
  revert b. induction a as [ | x a IH ]; intros [ | y b ]; cbn;
    try (split; [ discriminate | discriminate ]); try (split; reflexivity).
  rewrite andb_true_iff, N.eqb_eq, IH. split.
  - intros [-> ->]. reflexivity.
  - intros H. injection H as -> ->. split; reflexivity.
Qed.

Lemma eqb_refl (a : JsString) : Js.eqb a a = true.
Proof. apply eqb_eq. reflexivity. Qed.





(** ** The route guard of the walk-through *)

Lemma strip_prefix_spec (p s r : JsString) :
  strip_prefix p s = Some r <-> s = p ++ r.
Proof.
  revert s. induction p as [ | x p IH ]; intros s.
  - cbn. split; [ intros H; injection H as ->; reflexivity | intros ->; reflexivity ].
  - destruct s as [ | y s ]; cbn.
    + split; discriminate.
    + destruct (N.eqb x y) eqn:E.
      * apply N.eqb_eq in E. subst y. rewrite IH. split.
        -- intros ->. reflexivity.
        -- intros H. injection H as ->. reflexivity.
      * apply N.eqb_neq in E. split; [ discriminate | ].
        intros H. injection H as -> _. contradiction.
Qed.

Lemma startsWith_spec (s p : JsString) :
  Tutorial.startsWith s p = true <-> exists r, s = p ++ r.
Proof.
  unfold Tutorial.startsWith. split.
  - destruct (strip_prefix p s) as [r | ] eqn:E; [ | discriminate ].
    intros _. exists r. apply strip_prefix_spec. exact E.
  - intros [r H]. apply strip_prefix_spec in H. rewrite H. reflexivity.
Qed.

(** The guard refuses a request exactly when no user is logged in and the
    path begins with /protected, whatever follows those characters. *)
Theorem authorized_refuses_exactly (U : Type)
    (auth : option (Tutorial.Session U)) (nextUrl : Tutorial.NextURL) :
  Tutorial.authorized auth nextUrl = Tutorial.RBool false <->
  Tutorial.isLoggedIn auth = false /\
  exists rest, Tutorial.pathname nextUrl = `"/protected" ++ rest.
Proof.
  rewrite <- startsWith_spec. unfold Tutorial.authorized.
  destruct (Tutorial.startsWith (Tutorial.pathname nextUrl) `"/protected");
    destruct (Tutorial.isLoggedIn auth); cbn; split;
    try discriminate; try (intros [? ?]; discriminate); auto.
Qed.

(** A logged-in user who asks for a path outside /protected is
    redirected, with status 302, to /protected on the same origin, and the
    guard lets that user in there: the redirect is followed once. *)
Theorem authorized_redirect_lands (U : Type)
    (auth : option (Tutorial.Session U)) (nextUrl : Tutorial.NextURL) :
  Tutorial.isLoggedIn auth = true ->
  Tutorial.startsWith (Tutorial.pathname nextUrl) `"/protected" = false ->
  Tutorial.authorized auth nextUrl
    = Tutorial.RResponse 302
        (Tutorial.mkNextURL (Tutorial.origin nextUrl) `"/protected" []) /\
  Tutorial.authorized auth
      (Tutorial.mkNextURL (Tutorial.origin nextUrl) `"/protected" [])
    = Tutorial.RBool true.
Proof.
  intros Hl Hp. unfold Tutorial.authorized. rewrite Hl, Hp.
  split; reflexivity.
Qed.

Lemma authorized_redirect_lands_witness :
  Tutorial.authorized (Some {| Tutorial.user := Some tt |})
      (Tutorial.mkNextURL `"https://example.org" `"/login" `"?next=1")
    = Tutorial.RResponse 302
        (Tutorial.mkNextURL `"https://example.org" `"/protected" []) /\
  Tutorial.authorized (Some {| Tutorial.user := Some tt |})
      (Tutorial.mkNextURL `"https://example.org" `"/protected" [])
    = Tutorial.RBool true.
Proof.
  apply (authorized_redirect_lands unit (Some {| Tutorial.user := Some tt |})
           (Tutorial.mkNextURL `"https://example.org" `"/login" `"?next=1"));
    reflexivity.
Defined.

(** ** The credentials check and the form actions of the walk-through *)

Section ActionFacts.

Import Tutorial.

Variables World Id : Type.
Variable sv : Services World Id.

Lemma writes_app (a b : list (Call Id)) : writes (a ++ b) = writes a ++ writes b.
Proof. apply filter_app. Qed.

(** [authorize] hands out an identity only for a row the user manager
    found under the email of the credentials and whose stored hash
    [compare] accepts for the password of the credentials; the identity
    is the id, name and email of that row. *)
Theorem authorize_sound (credentials : Credentials) (st st' : St World Id)
    (ident : Identity Id) :
  authorize sv credentials st = (Normal (Some ident), st') ->
  exists row,
    findByEmail sv (cred_email credentials) (world st)
      = (Normal (Some row), world st') /\
    compare sv (cred_password credentials) (password row) = Normal true /\
    ident = mkIdentity (id row) (name row) (email row).
Proof.
  unfold authorize, pure_call, bind, call, ret.
  destruct (findByEmail sv (cred_email credentials) (world st))
    as [[[row | ] | e] w] eqn:Hf; try discriminate.
  cbn [world calls].
  destruct (compare sv (cred_password credentials) (password row))
    as [[ | ] | e] eqn:Hc; try discriminate.
  intros H. injection H as <- <-. exists row.
  split; [ reflexivity | ]. split; [ exact Hc | reflexivity ].
Qed.

(** [authorize] never creates or updates a user, whatever the services
    answer; it looks the email up once and calls [compare] at most once,
    on the hash of the row found. *)
Theorem authorize_never_writes (credentials : Credentials) (st : St World Id) :
  writes (calls (snd (authorize sv credentials st))) = writes (calls st) /\
  (calls (snd (authorize sv credentials st))
     = calls st ++ [ CFindByEmail (cred_email credentials) ] \/
   exists row w,
     findByEmail sv (cred_email credentials) (world st) = (Normal (Some row), w) /\
     calls (snd (authorize sv credentials st))
       = calls st ++ [ CFindByEmail (cred_email credentials);
                       CCompare (cred_password credentials) (password row) ]).
Proof.
  unfold authorize, pure_call, bind, call, ret.
  destruct (findByEmail sv (cred_email credentials) (world st))
    as [[[row | ] | e] w] eqn:Hf; cbn [world calls snd].
  - destruct (compare sv (cred_password credentials) (password row))
      as [[ | ] | e]; cbn [snd calls];
      rewrite <- app_assoc, writes_app; cbn; rewrite app_nil_r;
      (split; [ reflexivity | right; exists row, w; split; reflexivity ]).
  - rewrite writes_app, app_nil_r. split; [ reflexivity | left; reflexivity ].
  - rewrite writes_app, app_nil_r. split; [ reflexivity | left; reflexivity ].
Qed.

Ltac run_action :=
  unfold register, resetPassword, console_error, pure_call, try_catch,
    bind, call, ret;
  cbn [world calls].

(** Both form actions always return a state and never throw, whatever
    the services do; the state is one of the three the action can
    build. *)
Theorem actions_never_throw (prevState : option ActionState)
    (formData : FormData) (st : St World Id) :
  (exists a st',
      register sv prevState formData st = (Normal a, st') /\
      (a = mkActionState true `"Registration successful." \/
       a = mkActionState false `"User already exists." \/
       a = mkActionState false `"Something went wrong.")) /\
  (exists a st',
      resetPassword sv prevState formData st = (Normal a, st') /\
      (a = mkActionState true `"Password reset successful." \/
       a = mkActionState false `"User does not exist" \/
       a = mkActionState false `"Something went wrong.")).
Proof.
  split; run_action;
    destruct (findByEmail sv (get formData `"email") (world st))
      as [[[row | ] | e] w]; cbn [world calls];
    try (eexists _, _; split; [ reflexivity | tauto ]);
    destruct (genSaltSync sv 10 w) as [[salt | e] w']; cbn [world calls];
    try (eexists _, _; split; [ reflexivity | tauto ]);
    destruct (hashSync sv (get formData `"password") salt) as [hash | e];
    cbn [world calls];
    try (eexists _, _; split; [ reflexivity | tauto ]).
  - destruct (create sv (mkNewUser (get formData `"email")
                           (get formData `"name") hash) w')
      as [[[] | e] w'']; cbn [world calls];
      eexists _, _; (split; [ reflexivity | tauto ]).
  - destruct (update sv (id row) hash w') as [[[] | e] w''];
      cbn [world calls]; eexists _, _; (split; [ reflexivity | tauto ]).
Qed.


(** A successful registration went through the whole path: the lookup
    found nobody, and [create] completed for the email and name of the
    form and the hash, leaving the world the action ends in. *)
Lemma register_succeeded (prevState : option ActionState)
    (formData : FormData) (st st' : St World Id) (a : ActionState) :
  register sv prevState formData st = (Normal a, st') ->
  success a = true ->
  exists salt hash w w',
    findByEmail sv (get formData `"email") (world st) = (Normal None, w) /\
    genSaltSync sv 10 w = (Normal salt, w') /\
    hashSync sv (get formData `"password") salt = Normal hash /\
    create sv (mkNewUser (get formData `"email") (get formData `"name") hash) w'
      = (Normal tt, world st') /\
    message a = `"Registration successful.".
Proof.
  run_action.
  destruct (findByEmail sv (get formData `"email") (world st))
    as [[[row | ] | e] w] eqn:Hf; cbn [world calls];
    try (intros H; injection H as <- <-; discriminate).
  destruct (genSaltSync sv 10 w) as [[salt | e] w'] eqn:Hg; cbn [world calls];
    try (intros H; injection H as <- <-; discriminate).
  destruct (hashSync sv (get formData `"password") salt) as [hash | e] eqn:Hh;
    cbn [world calls];
    try (intros H; injection H as <- <-; discriminate).
  destruct (create sv (mkNewUser (get formData `"email")
                         (get formData `"name") hash) w')
    as [[[] | e] w''] eqn:Hc; cbn [world calls];
    intros H; injection H as <- <-; try discriminate.
  intros _. exists salt, hash, w, w'. repeat split; assumption.
Qed.

(** [resetPassword] writes to the store at most once, and only by
    updating the row the lookup found under the email of the form, by its
    id, with what [hashSync] made of the password of the form; when the
    lookup finds nobody it answers that the user does not exist and calls
    nothing more. *)
Theorem resetPassword_updates_found_user (prevState : option ActionState)
    (formData : FormData) (st : St World Id) :
  (exists l,
      calls (snd (resetPassword sv prevState formData st)) = calls st ++ l /\
      (writes l = [] \/
       exists row salt hash w w',
         findByEmail sv (get formData `"email") (world st)
           = (Normal (Some row), w) /\
         genSaltSync sv 10 w = (Normal salt, w') /\
         hashSync sv (get formData `"password") salt = Normal hash /\
         writes l = [ CUpdate (id row) hash ])) /\
  (forall w,
      findByEmail sv (get formData `"email") (world st) = (Normal None, w) ->
      resetPassword sv prevState formData st
        = (Normal (mkActionState false `"User does not exist"),
           mkSt w (calls st ++ [ CFindByEmail (get formData `"email") ]))).
Proof.
  split.
  - run_action.
    destruct (findByEmail sv (get formData `"email") (world st))
      as [[[row | ] | e] w] eqn:Hf; cbn [world calls snd];
      try (eexists; split; [ rewrite <- ?app_assoc; reflexivity | left; reflexivity ]).
    destruct (genSaltSync sv 10 w) as [[salt | e] w'] eqn:Hg; cbn [world calls snd];
      try (eexists; split; [ rewrite <- ?app_assoc; reflexivity | left; reflexivity ]).
    destruct (hashSync sv (get formData `"password") salt) as [hash | e] eqn:Hh;
      cbn [world calls snd];
      try (eexists; split; [ rewrite <- ?app_assoc; reflexivity | left; reflexivity ]).
    destruct (update sv (id row) hash w') as [[[] | e] w''] eqn:Hc;
      cbn [world calls snd];
      (eexists; split; [ rewrite <- ?app_assoc; reflexivity | ]);
      right; exists row, salt, hash, w, w';
      repeat split; first [ assumption | reflexivity ].
  - intros w Hf. run_action. rewrite Hf. reflexivity.
Qed.

(** Registration and login fit together: with services that find what
    was created and accept a password against its own hash, the
    credentials of a successful registration, checked right after it, are
    accepted, and the identity carries the email and name of the form. *)
Theorem register_then_authorize (prevState : option ActionState)
    (formData : FormData) (st st1 : St World Id) (a : ActionState) :
  finds_created sv ->
  accepts_own_hash sv ->
  register sv prevState formData st = (Normal a, st1) ->
  success a = true ->
  exists ident st2,
    authorize sv {| cred_email := get formData `"email";
                    cred_password := get formData `"password" |} st1
      = (Normal (Some ident), st2) /\
    identity_email ident = get formData `"email" /\
    identity_name ident = get formData `"name".
Proof.
  intros Lstore Lhash HR Hs.
  destruct (register_succeeded prevState formData st st1 a HR Hs)
    as (salt & hash & w & w' & _ & Hg & Hh & Hc & _).
  destruct (Lstore _ _ _ Hc) as (row & w'' & Hf & He & Hn & Hp).
  cbn [new_email new_name new_password] in Hf, He, Hn, Hp.
  pose proof (Lhash _ _ _ _ _ _ Hg Hh) as Hcmp.
  unfold authorize, pure_call, bind, call, ret.
  cbn [cred_email cred_password]. rewrite Hf. cbn [world calls].
  rewrite Hp, Hcmp. eexists _, _. split; [ reflexivity | ].
  cbn [identity_email identity_name]. split; assumption.
Qed.

(** No second account for one email: with services that find what was
    created, a registration under the email of a registration that just
    succeeded is answered with the existing user message and writes
    nothing, whatever its name and password. *)
Theorem register_twice (prevState prevState' : option ActionState)
    (formData formData' : FormData) (st st1 : St World Id) (a : ActionState) :
  finds_created sv ->
  register sv prevState formData st = (Normal a, st1) ->
  success a = true ->
  get formData' `"email" = get formData `"email" ->
  exists st2,
    register sv prevState' formData' st1
      = (Normal (mkActionState false `"User already exists."), st2) /\
    writes (calls st2) = writes (calls st1).
Proof.
  intros Lstore HR Hs Hsame.
  destruct (register_succeeded prevState formData st st1 a HR Hs)
    as (salt & hash & w & w' & _ & _ & _ & Hc & _).
  destruct (Lstore _ _ _ Hc) as (row & w'' & Hf & _).
  cbn [new_email] in Hf.
  run_action. rewrite Hsame, Hf. cbn [world calls].
  eexists. split; [ reflexivity | ].
  cbn [calls]. rewrite writes_app, app_nil_r. reflexivity.
Qed.

End ActionFacts.

(** *** The sample store meets what was asked, and runs *)

Section SampleFacts.

Import Tutorial.

Lemma same_refl (a : Value) : same a a = true.
Proof. destruct a as [s | ]; [ apply eqb_refl | reflexivity ]. Qed.

Lemma find_last {A} (f : A -> bool) (l : list A) (x : A) :
  find f l = None -> f x = true -> find f (l ++ [x]) = Some x.
Proof.
  intros Hn Hx. induction l as [ | y l IH ]; cbn in *.
  - rewrite Hx. reflexivity.
  - destruct (f y); [ discriminate Hn | exact (IH Hn) ].
Qed.

Lemma sample_finds_created : finds_created sample.
Proof.
  intros nu w w' H. cbn in H.
  destruct (find (fun r => same (email r) (new_email nu)) w) eqn:Hfind;
    [ discriminate H | ].
  injection H as <-.
  eexists _, _. cbn. split.
  - rewrite (find_last _ _ _ Hfind); [ reflexivity | ].
    cbn. apply same_refl.
  - repeat split.
Qed.

Lemma sample_accepts_own_hash : accepts_own_hash sample.
Proof.
  intros rounds w w' salt p h Hg Hh. cbn in Hg. injection Hg as <- _.
  cbn in *. rewrite Hh. rewrite eqb_refl. reflexivity.
Qed.

Lemma authorize_sound_witness :
  exists row,
    findByEmail sample (cred_email ada_credentials) (world registered)
      = (Normal (Some row), world registered) /\
    compare sample (cred_password ada_credentials) (password row) = Normal true /\
    mkIdentity 0%nat (Some `"Ada") (Some `"ada@example.org")
      = mkIdentity (id row) (name row) (email row).
Proof.
  apply (authorize_sound _ _ sample ada_credentials registered
           (snd (authorize sample ada_credentials registered))).
  reflexivity.
Defined.

Lemma register_then_authorize_witness :
  exists ident st2,
    authorize sample {| cred_email := get ada_form `"email";
                        cred_password := get ada_form `"password" |} registered
      = (Normal (Some ident), st2) /\
    identity_email ident = get ada_form `"email" /\
    identity_name ident = get ada_form `"name".
Proof.
  apply (register_then_authorize _ _ sample None ada_form empty registered
           (mkActionState true `"Registration successful."));
    [ exact sample_finds_created | exact sample_accepts_own_hash
    | reflexivity | reflexivity ].
Defined.

Lemma register_twice_witness :
  exists st2,
    register sample None [ (`"email", `"ada@example.org") ] registered
      = (Normal (mkActionState false `"User already exists."), st2) /\
    writes (calls st2) = writes (calls registered).
Proof.
  apply (register_twice _ _ sample None None ada_form
           [ (`"email", `"ada@example.org") ] empty registered
           (mkActionState true `"Registration successful."));
    [ exact sample_finds_created | reflexivity | reflexivity | reflexivity ].
Defined.

Lemma resetPassword_updates_found_user_witness :
  resetPassword sample None ada_form empty
    = (Normal (mkActionState false `"User does not exist"),
       mkSt [] [ CFindByEmail (get ada_form `"email") ]).
Proof.
  apply (proj2 (resetPassword_updates_found_user _ _ sample None ada_form empty)).
  reflexivity.
Defined.

End SampleFacts.
